(** * DocumentVault web client: session logic of [src/App.tsx]

    The development embeds the two pieces of decision logic of the client:
    the transport wrapper [api] and the four session operations
    [register], [login], [refresh] and [logout] of the [App] component.

    Conventions of the embedding.
    - A promise is modelled by its settlement: [Resolved v] or [Rejected e].
    - The component state (the [useState] cells) is a record that every
      operation threads explicitly; the state written before a rejection is
      kept, as in the source, where [setMsg("")] runs before the [await].
    - Values typed by the source ([User], the response body
      [{ user; accessToken }]) are records; [T | null] is [option T].
      The typed operations take the cast [(await res.json()) as T] at its
      word, as TypeScript does; the run-time operations ([rt_register] and
      the like) do not, and read the two properties off whatever was
      parsed.
    - What the platform supplies ([fetch], [JSON.stringify], the build-time
      constant [API_BASE]) is a parameter of the definitions that use it. *)

From Stdlib Require Import NArith Ascii String.
From stdpp Require Import base option strings pretty gmap.

Local Open Scope string_scope.
Local Open Scope N_scope.

(** ** Platform values *)

(** The faults an awaited platform call can reject with: [fetch] rejects with
    a [TypeError] when the request cannot complete, [res.json()] rejects with
    a [SyntaxError] when the body is not JSON, and the [Headers] constructor
    throws a [TypeError] on an invalid header name or value. *)
Inductive Exn : Type :=
  | NetworkError
  | SyntaxError
  | InvalidHeader.

(** Settlement of a [Promise<A>]. *)
Inductive Promise (A : Type) : Type :=
  | Resolved (a : A)
  | Rejected (e : Exn).
Arguments Resolved {A} a.
Arguments Rejected {A} e.

Module PromiseM.
Definition bind {A B} (p : Promise A) (k : A -> Promise B) : Promise B :=
  match p with
  | Resolved a => k a
  | Rejected e => Rejected e
  end.
End PromiseM.

(** JSON-serialisable values, the argument of [JSON.stringify]. *)
#[local] Unset Elimination Schemes.
Inductive JsonValue : Type :=
  | JNull
  | JBool (b : bool)
  | JNumber (n : Z)
  | JString (s : string)
  | JArray (xs : list JsonValue)
  | JObject (fields : list (string * JsonValue)).
#[local] Set Elimination Schemes.

(** *** Strings *)

(** [s.includes(needle)]: [needle] occurs in [s] as a contiguous substring. *)
Fixpoint includes (s needle : string) : bool :=
  if String.prefix needle s then true
  else match s with
       | EmptyString => false
       | String _ s' => includes s' needle
       end.

(** [`${n}`] for a status code: its decimal digits. *)
Definition Number_toString (n : N) : string := pretty n.

(** ASCII lower-casing of header names ([Headers] is case-insensitive). *)
Definition ascii_lower (a : ascii) : ascii :=
  let n := N_of_ascii a in
  if (65 <=? n) && (n <=? 90) then ascii_of_N (n + 32) else a.

Fixpoint lower (s : string) : string :=
  match s with
  | EmptyString => EmptyString
  | String a s' => String (ascii_lower a) (lower s')
  end.

(** *** Headers *)

Fixpoint string_forallb (p : ascii -> bool) (s : string) : bool :=
  match s with
  | EmptyString => true
  | String a s' => p a && string_forallb p s'
  end.

(** The characters of a header name: letters, digits and
    [! # $ % & ' * + - . ^ _ ` | ~]. *)
Definition is_tchar (a : ascii) : bool :=
  let n := N_of_ascii a in
  ((48 <=? n) && (n <=? 57)) || ((65 <=? n) && (n <=? 90))
  || ((97 <=? n) && (n <=? 122))
  || existsb (N.eqb n) [33; 35; 36; 37; 38; 39; 42; 43; 45; 46; 94; 95; 96; 124; 126].

Definition is_header_name (s : string) : bool :=
  negb (String.eqb s "") && string_forallb is_tchar s.

(** Tab, line feed, carriage return and space. *)
Definition is_http_whitespace (a : ascii) : bool :=
  existsb (N.eqb (N_of_ascii a)) [9; 10; 13; 32].

Definition is_tab_or_space (a : ascii) : bool :=
  existsb (N.eqb (N_of_ascii a)) [9; 32].

Fixpoint strip_leading (s : string) : string :=
  match s with
  | EmptyString => EmptyString
  | String a s' => if is_http_whitespace a then strip_leading s' else s
  end.

Fixpoint strip_trailing (s : string) : string :=
  match s with
  | EmptyString => EmptyString
  | String a s' =>
      let t := strip_trailing s' in
      if is_http_whitespace a && String.eqb t "" then EmptyString
      else String a t
  end.

(** A header value is stored without its leading and trailing whitespace. *)
Definition normalize (v : string) : string := strip_trailing (strip_leading v).

Fixpoint last_char (s : string) : option ascii :=
  match s with
  | EmptyString => None
  | String a EmptyString => Some a
  | String _ s' => last_char s'
  end.

Definition first_char (s : string) : option ascii :=
  match s with
  | EmptyString => None
  | String a _ => Some a
  end.

(** A header value: no NUL, line feed or carriage return, and no tab or
    space at either end. *)
Definition is_header_value (v : string) : bool :=
  string_forallb (fun a => negb (existsb (N.eqb (N_of_ascii a)) [0; 10; 13])) v
  && negb (from_option is_tab_or_space false (first_char v))
  && negb (from_option is_tab_or_space false (last_char v)).

(** A [Headers] object: a map from lower-cased names to (combined) values.
    The operations that take a name and a value throw a [TypeError], here
    [None], when the name or the normalized value is invalid. *)
Module Headers.
Abbreviation t := (gmap string string).

(** [headers.append(name, value)] *)
Definition append (name value : string) (h : t) : option t :=
  let value := normalize value in
  if is_header_name name && is_header_value value then
    match h !! lower name with
    | Some old => Some (<[lower name := old +:+ ", " +:+ value]> h)
    | None => Some (<[lower name := value]> h)
    end
  else None.

(** [new Headers(init)], [init] being a sequence of name/value pairs
    ([undefined] is the empty sequence): the pairs are appended in order. *)
Definition new (init : list (string * string)) : option t :=
  fold_left (fun acc kv => acc ≫= append kv.1 kv.2) init (Some ∅).

(** [headers.set(name, value)] *)
Definition set (name value : string) (h : t) : option t :=
  let value := normalize value in
  if is_header_name name && is_header_value value
  then Some (<[lower name := value]> h)
  else None.

End Headers.


(** *** Requests and responses *)

(** [RequestInit & { json?: unknown }], the fields the client uses. *)
Record Opts : Type := {
  method : option string;
  headers : list (string * string);
  body : option string;
  json : option JsonValue
}.

(** The [opts = {}] default. *)
Definition no_opts : Opts :=
  {| method := None; headers := nil; body := None; json := None |}.

(** The init object handed to [fetch]. *)
Record RequestInit : Type := {
  init_method : option string;
  init_headers : Headers.t;
  init_credentials : string;
  init_body : option string
}.

(** A [Response] as the wrapper reads it: the status, the declared content
    type and the settlement of [res.json()], typed by the cast to [T]. *)
Record Response (T : Type) : Type := {
  res_status : N;
  res_content_type : option string;
  res_json : Promise (option T)
}.
Arguments res_status {T} _.
Arguments res_content_type {T} _.
Arguments res_json {T} _.

(** [fetch(url, init)] *)
Definition Fetch (T : Type) : Type := string -> RequestInit -> Promise (Response T).

(** The wrapper's result [{ status: number; data: T | null }]. *)
Record ApiResult (T : Type) : Type := {
  status : N;
  data : option T
}.
Arguments status {T} _.
Arguments data {T} _.
Arguments Build_ApiResult {T} _ _.

(** ** The component state *)

(** [type User = { id; email; createdAt }] *)
Record User : Type := {
  user_id : string;
  user_email : string;
  user_createdAt : string
}.

(** The body type of the three authenticating calls,
    [{ user: User; accessToken: string }]. *)
Record AuthBody : Type := {
  data_user : User;
  data_accessToken : string
}.

(** The body type [null] of [api<null>]: [null | null] has the single value
    [null], which is [None]. *)
Definition Null : Type := Empty_set.

Inductive Mode : Type :=
  | ModeLogin
  | ModeRegister.

(** The six [useState] cells of [App] (lines 29-34). *)
Record AppState : Type := {
  mode : Mode;
  email : string;
  password : string;
  user : option User;
  accessToken : option string;
  msg : string
}.

(** Lines 29-34: the initial values. *)
Definition initial : AppState :=
  {| mode := ModeLogin;
     email := "a@test.com";
     password := "Passw0rd!";
     user := None;
     accessToken := None;
     msg := "" |}.

(** Line 36 *)
Definition canSubmit (st : AppState) : bool :=
  (0 <? String.length (email st))%nat && (0 <? String.length (password st))%nat.

(** An [async] function of the component: it transforms the state and
    settles. The state reached before a rejection is kept. *)
Definition Async (A : Type) : Type := AppState -> AppState * Promise A.

Module AsyncM.
Definition ret {A} (a : A) : Async A := fun st => (st, Resolved a).

Definition bind {A B} (m : Async A) (k : A -> Async B) : Async B :=
  fun st =>
    match m st with
    | (st', Resolved a) => k a st'
    | (st', Rejected e) => (st', Rejected e)
    end.

(** [await p] *)
Definition await {A} (p : Promise A) : Async A := fun st => (st, p).
End AsyncM.

Declare Scope async_scope.
Delimit Scope async_scope with async.
Notation "'let*' x ':=' m 'in' k" := (AsyncM.bind m (fun x => k))
  (at level 10, x name, m at level 100, k at level 200) : async_scope.
Notation "m ;; k" := (AsyncM.bind m (fun _ => k))
  (at level 100, k at level 200, right associativity) : async_scope.

Definition setMode (m : Mode) : Async unit := fun st =>
  ({| mode := m; email := email st; password := password st;
      user := user st; accessToken := accessToken st; msg := msg st |},
   Resolved tt).

Definition setEmail (e : string) : Async unit := fun st =>
  ({| mode := mode st; email := e; password := password st;
      user := user st; accessToken := accessToken st; msg := msg st |},
   Resolved tt).

Definition setPassword (p : string) : Async unit := fun st =>
  ({| mode := mode st; email := email st; password := p;
      user := user st; accessToken := accessToken st; msg := msg st |},
   Resolved tt).

Definition setUser (u : option User) : Async unit := fun st =>
  ({| mode := mode st; email := email st; password := password st;
      user := u; accessToken := accessToken st; msg := msg st |},
   Resolved tt).

Definition setAccessToken (t : option string) : Async unit := fun st =>
  ({| mode := mode st; email := email st; password := password st;
      user := user st; accessToken := t; msg := msg st |},
   Resolved tt).

Definition setMsg (m : string) : Async unit := fun st =>
  ({| mode := mode st; email := email st; password := password st;
      user := user st; accessToken := accessToken st; msg := m |},
   Resolved tt).

(** ** Session shapes *)

Definition Anonymous (st : AppState) : Prop :=
  user st = None /\ accessToken st = None.

Definition Authenticated (st : AppState) : Prop :=
  user st <> None /\ accessToken st <> None.

Definition AuthenticatedAs (u : User) (t : string) (st : AppState) : Prop :=
  user st = Some u /\ accessToken st = Some t.

Definition session_ok (st : AppState) : Prop :=
  Anonymous st \/ Authenticated st.

(** [st'] is [st] with another status message. *)
Definition only_msg_changed (st st' : AppState) : Prop :=
  exists m, st' = (setMsg m st).1.

(** The session part of the state is the same in [st] and [st']. *)
Definition session_unchanged (st st' : AppState) : Prop :=
  user st' = user st /\ accessToken st' = accessToken st.

(** The status the wrapper resolved with, [None] when it rejected. *)
Definition settled_status {T} (p : Promise (ApiResult T)) : option N :=
  match p with
  | Resolved res => Some (status res)
  | Rejected _ => None
  end.

(** A response declares JSON when its content-type header contains the
    text [application/json]. *)
Definition declares_json {T} (r : Response T) : Prop :=
  exists a b, res_content_type r = Some (a +:+ "application/json" +:+ b).

(** ** The state at run time

    TypeScript does not check the cast of line 23. A parsed body may lack
    [user] or [accessToken], or hold [null] there, and lines 46-47, 65-66
    and 81-82 store whatever they read. The run-time view of the component
    keeps the three outcomes of a property read apart; a value that is
    present is taken to have the declared type. *)

Inductive Cell (A : Type) : Type :=
  | Undefined
  | JsNull
  | Value (a : A).
Arguments Undefined {A}.
Arguments JsNull {A}.
Arguments Value {A} a.

(** A truthy parsed body, by what [.user] and [.accessToken] read on it.
    A falsy parsed body ([null], [false], [0], the empty string) is the
    [None] of [option RawBody]: the guard [res.data] fails on it. *)
Record RawBody : Type := {
  body_user : Cell User;
  body_accessToken : Cell string
}.

(** The [useState] cells at run time. *)
Record RawState : Type := {
  rt_mode : Mode;
  rt_email : string;
  rt_password : string;
  rt_user : Cell User;
  rt_accessToken : Cell string;
  rt_msg : string
}.





Definition rt_setUser (u : Cell User) (st : RawState) : RawState :=
  {| rt_mode := rt_mode st; rt_email := rt_email st;
     rt_password := rt_password st;
     rt_user := u; rt_accessToken := rt_accessToken st; rt_msg := rt_msg st |}.

Definition rt_setAccessToken (t : Cell string) (st : RawState) : RawState :=
  {| rt_mode := rt_mode st; rt_email := rt_email st;
     rt_password := rt_password st;
     rt_user := rt_user st; rt_accessToken := t; rt_msg := rt_msg st |}.

Definition rt_setMsg (m : string) (st : RawState) : RawState :=
  {| rt_mode := rt_mode st; rt_email := rt_email st;
     rt_password := rt_password st;
     rt_user := rt_user st; rt_accessToken := rt_accessToken st; rt_msg := m |}.





(** The run-time view of well-typed values. *)
Definition of_option {A} (o : option A) : Cell A :=
  match o with
  | Some a => Value a
  | None => JsNull
  end.

Definition of_body (d : AuthBody) : RawBody :=
  {| body_user := Value (data_user d);
     body_accessToken := Value (data_accessToken d) |}.

Definition of_state (st : AppState) : RawState :=
  {| rt_mode := mode st; rt_email := email st; rt_password := password st;
     rt_user := of_option (user st);
     rt_accessToken := of_option (accessToken st);
     rt_msg := msg st |}.

Definition of_response (r : Response AuthBody) : Response RawBody :=
  {| res_status := res_status r;
     res_content_type := res_content_type r;
     res_json := match res_json r with
                 | Resolved d => Resolved (of_body <$> d)
                 | Rejected e => Rejected e
                 end |}.

Definition of_fetch (fetch : Fetch AuthBody) : Fetch RawBody :=
  fun url init =>
    match fetch url init with
    | Resolved r => Resolved (of_response r)
    | Rejected e => Rejected e
    end.

(** ** Sample values *)

Module Sample.
Definition quote : string := String (ascii_of_N 34) EmptyString.

Definition hex_digit (n : N) : string :=
  match String.get (N.to_nat n) "0123456789abcdef" with
  | Some c => String c EmptyString
  | None => EmptyString
  end.

(** The escapes of a string literal: the quote, the backslash and the
    control characters. *)
Definition backslash : string := String (ascii_of_N 92) EmptyString.

Definition escape_char (a : ascii) : string :=
  let n := N_of_ascii a in
  if n =? 34 then backslash +:+ quote
  else if n =? 92 then backslash +:+ backslash
  else if n =? 8 then backslash +:+ "b"
  else if n =? 12 then backslash +:+ "f"
  else if n =? 10 then backslash +:+ "n"
  else if n =? 13 then backslash +:+ "r"
  else if n =? 9 then backslash +:+ "t"
  else if n <? 32
  then backslash +:+ "u00" +:+ hex_digit (n / 16) +:+ hex_digit (n mod 16)
  else String a EmptyString.

Fixpoint escape (s : string) : string :=
  match s with
  | EmptyString => EmptyString
  | String a s' => escape_char a +:+ escape s'
  end.

Definition quoted (s : string) : string := quote +:+ escape s +:+ quote.

(** A serialiser for the values the examples send. *)
Fixpoint stringify (j : JsonValue) : string :=
  match j with
  | JNull => "null"
  | JBool true => "true"
  | JBool false => "false"
  | JNumber n => pretty n
  | JString s => quoted s
  | JArray xs =>
      "[" +:+
      (fix items xs :=
         match xs with
         | [] => ""
         | [x] => stringify x
         | x :: xs' => stringify x +:+ "," +:+ items xs'
         end) xs +:+ "]"
  | JObject fields =>
      "{" +:+
      (fix items fs :=
         match fs with
         | [] => ""
         | [(k, v)] => quoted k +:+ ":" +:+ stringify v
         | (k, v) :: fs' =>
             quoted k +:+ ":" +:+ stringify v +:+ "," +:+ items fs'
         end) fields +:+ "}"
  end.

Definition base : string := "http://localhost:3000".

Definition u1 : User :=
  {| user_id := "u1"; user_email := "a@test.com";
     user_createdAt := "2024-01-01T00:00:00Z" |}.

Definition body1 : AuthBody := {| data_user := u1; data_accessToken := "tok1" |}.
Definition body2 : AuthBody := {| data_user := u1; data_accessToken := "tok2" |}.

(** A server that answers every request with the same response. *)
Definition answers {T} (r : Response T) : Fetch T := fun _ _ => Resolved r.

(** No network. *)
Definition offline {T} : Fetch T := fun _ _ => Rejected NetworkError.

Definition json_response {T} (code : N) (d : option T) : Response T :=
  {| res_status := code;
     res_content_type := Some "application/json; charset=utf-8";
     res_json := Resolved d |}.

(** A response without a body: no content type, nothing to parse. *)
Definition empty_response {T} (code : N) : Response T :=
  {| res_status := code;
     res_content_type := None;
     res_json := Rejected SyntaxError |}.

(** A response that announces JSON and carries something else. *)
Definition broken_response {T} (code : N) : Response T :=
  {| res_status := code;
     res_content_type := Some "application/json";
     res_json := Rejected SyntaxError |}.

Definition signed_in : AppState :=
  {| mode := ModeLogin; email := "a@test.com"; password := "Passw0rd!";
     user := Some u1; accessToken := Some "tok1"; msg := "Logged in" |}.

(** A body with the empty access token. *)
Definition body0 : AuthBody := {| data_user := u1; data_accessToken := "" |}.

(** A server that knows one URL and is unreachable elsewhere. *)
Definition only_at {T} (url : string) (r : Response T) : Fetch T :=
  fun u _ => if String.eqb u url then Resolved r else Rejected NetworkError.

(** A JSON text served as plain text. *)
Definition plain_response {T} (code : N) (d : option T) : Response T :=
  {| res_status := code;
     res_content_type := Some "text/plain";
     res_json := Resolved d |}.



(** The form with the password field emptied. *)
Definition no_password : AppState :=
  {| mode := ModeRegister; email := "a@test.com"; password := "";
     user := None; accessToken := None; msg := "" |}.
End Sample.

(** ** The client

    Everything from here to the end of the section is relative to the two
    things the build and the platform supply: the base origin and the JSON
    serialiser. *)

Section Client.
Variable API_BASE : string.
Variable JSON_stringify : JsonValue -> string.

Local Open Scope async_scope.

(** *** The transport wrapper *)

(** Lines 11-12: the request headers; [None] when [new Headers] throws. *)
Definition api_headers (opts : Opts) : option Headers.t :=
  Headers.new (headers opts) ≫= fun headers =>
  match json opts with
  | Some _ => Headers.set "Content-Type" "application/json" headers
  | None => Some headers
  end.

(** Lines 14-19: the arguments of [fetch], given the headers object. *)
Definition api_url (path : string) : string := API_BASE +:+ path.

Definition api_request (headers : Headers.t) (opts : Opts) : RequestInit :=
  {| init_method := method opts;
     init_headers := headers;
     init_credentials := "include";
     init_body := match json opts with
                  | Some j => Some (JSON_stringify j)
                  | None => body opts
                  end |}.

(** The init object of a call whose headers are valid. (With invalid
    headers no init object is built; the empty headers stand in here and
    [api] does not use them.) *)
Definition api_init (opts : Opts) : RequestInit :=
  api_request (default ∅ (api_headers opts)) opts.

(** Lines 21-25: reading the response. [res.headers.get(..) || ""] turns a
    missing header into the empty string. *)
Definition api_read {T} (res : Response T) : Promise (ApiResult T) :=
  let ct := default "" (res_content_type res) in
  if includes ct "application/json"
  then PromiseM.bind (res_json res) (fun d =>
         Resolved {| status := res_status res; data := d |})
  else Resolved {| status := res_status res; data := None |}.

(** Lines 7-26. A throw of line 11 rejects the promise of the [async]
    function before [fetch] is called. *)
Definition api {T} (fetch : Fetch T) (path : string) (opts : Opts)
  : Promise (ApiResult T) :=
  match api_headers opts with
  | None => Rejected InvalidHeader
  | Some headers =>
      PromiseM.bind (fetch (api_url path) (api_request headers opts)) api_read
  end.
Arguments api : simpl never.

(** *** The session operations *)

(** The object literal [{ email, password }]. *)
Definition credentials (st : AppState) : JsonValue :=
  JObject [("email", JString (email st)); ("password", JString (password st))].

Definition post : Opts :=
  {| method := Some "POST"; headers := nil; body := None; json := None |}.

Definition post_json (j : JsonValue) : Opts :=
  {| method := Some "POST"; headers := nil; body := None; json := Some j |}.

(** Lines 38-55 *)
Definition register (fetch : Fetch AuthBody) : Async unit := fun st0 =>
  (setMsg "" ;;
   let* res := AsyncM.await
     (api fetch "/auth/register"
          (post_json (credentials st0))) in
   match status res =? 201, data res with
   | true, Some d =>
       setUser (Some (data_user d)) ;;
       setAccessToken (Some (data_accessToken d)) ;;
       setMsg "Registered"
   | _, _ =>
       if status res =? 409 then setMsg "Email already exists"
       else if status res =? 400 then setMsg "Invalid payload"
       else setMsg ("Error: " +:+ Number_toString (status res))
   end) st0.

(** Lines 57-74 *)
Definition login (fetch : Fetch AuthBody) : Async unit := fun st0 =>
  (setMsg "" ;;
   let* res := AsyncM.await
     (api fetch "/auth/login"
          (post_json (credentials st0))) in
   match status res =? 200, data res with
   | true, Some d =>
       setUser (Some (data_user d)) ;;
       setAccessToken (Some (data_accessToken d)) ;;
       setMsg "Logged in"
   | _, _ =>
       if status res =? 401 then setMsg "Invalid credentials"
       else if status res =? 400 then setMsg "Invalid payload"
       else setMsg ("Error: " +:+ Number_toString (status res))
   end) st0.

(** Lines 76-89 *)
Definition refresh (fetch : Fetch AuthBody) : Async unit :=
  setMsg "" ;;
  let* res := AsyncM.await
    (api fetch "/auth/refresh" post) in
  match status res =? 200, data res with
  | true, Some d =>
      setUser (Some (data_user d)) ;;
      setAccessToken (Some (data_accessToken d)) ;;
      setMsg "Refreshed"
  | _, _ =>
      if status res =? 401 then setMsg "No/invalid refresh cookie"
      else setMsg ("Error: " +:+ Number_toString (status res))
  end.

(** Lines 91-101 *)
Definition logout (fetch : Fetch Null) : Async unit :=
  setMsg "" ;;
  let* res := AsyncM.await
    (api fetch "/auth/logout" post) in
  if status res =? 204 then
    setUser None ;;
    setAccessToken None ;;
    setMsg "Logged out"
  else setMsg ("Error: " +:+ Number_toString (status res)).

(** *** Runs of the component *)

(** What can happen to the mounted component: an input is edited, the mode
    is switched, or one of the four operations is started and runs to its
    settlement against the network behaviour [fetch] of that moment. *)
Inductive Event : Type :=
  | EvSetMode (m : Mode)
  | EvSetEmail (e : string)
  | EvSetPassword (p : string)
  | EvRegister (fetch : Fetch AuthBody)
  | EvLogin (fetch : Fetch AuthBody)
  | EvRefresh (fetch : Fetch AuthBody)
  | EvLogout (fetch : Fetch Null).

Definition handler (ev : Event) : Async unit :=
  match ev with
  | EvSetMode m => setMode m
  | EvSetEmail e => setEmail e
  | EvSetPassword p => setPassword p
  | EvRegister fetch => register fetch
  | EvLogin fetch => login fetch
  | EvRefresh fetch => refresh fetch
  | EvLogout fetch => logout fetch
  end.

(** The state after an event; a rejected handler leaves the component
    mounted, with the state it had reached. *)
Definition step (st : AppState) (ev : Event) : AppState := (handler ev st).1.

Definition run (evs : list Event) (st : AppState) : AppState :=
  fold_left step evs st.

Inductive reachable : AppState -> Prop :=
  | reachable_initial : reachable initial
  | reachable_step st ev : reachable st -> reachable (step st ev).

(** *** The rendered view *)

(** What lines 103-154 render, as far as it depends on the state: the two
    mode tabs, the two inputs, the submit button and the status pane. The
    Refresh and Logout buttons are always enabled. *)
Record View : Type := {
  login_tab_disabled : bool;
  register_tab_disabled : bool;
  email_value : string;
  password_value : string;
  password_autoComplete : string;
  submit_label : string;
  submit_disabled : bool;
  status_text : string;
  user_text : string;
  token_text : string
}.

(** [s || "-"] and [s ? s : "-"] on a string: the empty string is falsy. *)
Definition or_dash (s : string) : string :=
  if String.eqb s "" then "-" else s.

Definition is_login (m : Mode) : bool :=
  match m with ModeLogin => true | ModeRegister => false end.

Definition is_register (m : Mode) : bool :=
  match m with ModeLogin => false | ModeRegister => true end.

Definition render (st : AppState) : View :=
  {| login_tab_disabled := is_login (mode st);
     register_tab_disabled := is_register (mode st);
     email_value := email st;
     password_value := password st;
     password_autoComplete :=
       if is_login (mode st) then "current-password" else "new-password";
     submit_label := if is_register (mode st) then "Register" else "Login";
     submit_disabled := negb (canSubmit st);
     status_text := or_dash (msg st);
     user_text := match user st with
                  | Some u => user_email u
                  | None => "-"
                  end;
     token_text := match accessToken st with
                   | Some t => or_dash t
                   | None => "-"
                   end |}.

(** Lines 134-138: a click on the submit button. The button carries
    [register] in register mode and [login] otherwise; a disabled button
    does not run its handler. *)
Definition click_submit (fetch : Fetch AuthBody) : Async unit := fun st =>
  if submit_disabled (render st) then (st, Resolved tt)
  else if is_register (mode st) then register fetch st
  else login fetch st.

(** *** Servers *)

(** [fetch] never answers with status [code]. *)
Definition never_status {T} (code : N) (fetch : Fetch T) : Prop :=
  forall url init r, fetch url init = Resolved r -> res_status r <> code.

(** The event is not an operation that the server answers with the
    operation's success status. *)
Definition event_fails (ev : Event) : Prop :=
  match ev with
  | EvRegister fetch => never_status 201 fetch
  | EvLogin fetch => never_status 200 fetch
  | EvRefresh fetch => never_status 200 fetch
  | EvLogout fetch => never_status 204 fetch
  | _ => True
  end.

(** As [event_fails], for the three authenticating operations only. *)
Definition event_does_not_authenticate (ev : Event) : Prop :=
  match ev with
  | EvRegister fetch => never_status 201 fetch
  | EvLogin fetch => never_status 200 fetch
  | EvRefresh fetch => never_status 200 fetch
  | _ => True
  end.

(** Every body [fetch] delivers satisfies [P]. *)
Definition sends_only (P : AuthBody -> Prop) (fetch : Fetch AuthBody) : Prop :=
  forall url init r d,
    fetch url init = Resolved r -> res_json r = Resolved (Some d) -> P d.

Definition event_sends_only (P : AuthBody -> Prop) (ev : Event) : Prop :=
  match ev with
  | EvRegister fetch => sends_only P fetch
  | EvLogin fetch => sends_only P fetch
  | EvRefresh fetch => sends_only P fetch
  | _ => True
  end.

(** The session is empty or is the user and token of one body satisfying
    [P]. *)
Definition session_from (P : AuthBody -> Prop) (st : AppState) : Prop :=
  Anonymous st \/
  exists d, P d /\ AuthenticatedAs (data_user d) (data_accessToken d) st.

(** The settlement of an operation whose wrapper call settled as [p]. *)
Definition settles_like {A} (p : Promise A) : Promise unit :=
  match p with
  | Resolved _ => Resolved tt
  | Rejected e => Rejected e
  end.

(** The inputs and the mode are the same in [st] and [st']. *)
Definition inputs_unchanged (st st' : AppState) : Prop :=
  mode st' = mode st /\ email st' = email st /\ password st' = password st.

(** The request of [register] and [login] in state [st]. *)
Definition credentials_request (st : AppState) : RequestInit :=
  {| init_method := Some "POST";
     init_headers := {[ "content-type" := "application/json" ]};
     init_credentials := "include";
     init_body :=
       Some (JSON_stringify
               (JObject [("email", JString (email st));
                         ("password", JString (password st))])) |}.

(** The request of [refresh] and [logout]. *)
Definition cookie_request : RequestInit :=
  {| init_method := Some "POST";
     init_headers := ∅;
     init_credentials := "include";
     init_body := None |}.

(** *** The operations at run time *)

Definition rt_credentials (st : RawState) : JsonValue :=
  JObject [("email", JString (rt_email st));
           ("password", JString (rt_password st))].

(** Lines 38-55 *)
Definition rt_register (fetch : Fetch RawBody) (st0 : RawState)
  : RawState * Promise unit :=
  let st := rt_setMsg "" st0 in
  match api fetch "/auth/register" (post_json (rt_credentials st0)) with
  | Rejected e => (st, Rejected e)
  | Resolved res =>
      match status res =? 201, data res with
      | true, Some d =>
          (rt_setMsg "Registered"
             (rt_setAccessToken (body_accessToken d)
                (rt_setUser (body_user d) st)),
           Resolved tt)
      | _, _ =>
          if status res =? 409
          then (rt_setMsg "Email already exists" st, Resolved tt)
          else if status res =? 400
          then (rt_setMsg "Invalid payload" st, Resolved tt)
          else (rt_setMsg ("Error: " +:+ Number_toString (status res)) st,
                Resolved tt)
      end
  end.

(** Lines 57-74 *)
Definition rt_login (fetch : Fetch RawBody) (st0 : RawState)
  : RawState * Promise unit :=
  let st := rt_setMsg "" st0 in
  match api fetch "/auth/login" (post_json (rt_credentials st0)) with
  | Rejected e => (st, Rejected e)
  | Resolved res =>
      match status res =? 200, data res with
      | true, Some d =>
          (rt_setMsg "Logged in"
             (rt_setAccessToken (body_accessToken d)
                (rt_setUser (body_user d) st)),
           Resolved tt)
      | _, _ =>
          if status res =? 401
          then (rt_setMsg "Invalid credentials" st, Resolved tt)
          else if status res =? 400
          then (rt_setMsg "Invalid payload" st, Resolved tt)
          else (rt_setMsg ("Error: " +:+ Number_toString (status res)) st,
                Resolved tt)
      end
  end.

(** Lines 76-89 *)
Definition rt_refresh (fetch : Fetch RawBody) (st0 : RawState)
  : RawState * Promise unit :=
  let st := rt_setMsg "" st0 in
  match api fetch "/auth/refresh" post with
  | Rejected e => (st, Rejected e)
  | Resolved res =>
      match status res =? 200, data res with
      | true, Some d =>
          (rt_setMsg "Refreshed"
             (rt_setAccessToken (body_accessToken d)
                (rt_setUser (body_user d) st)),
           Resolved tt)
      | _, _ =>
          if status res =? 401
          then (rt_setMsg "No/invalid refresh cookie" st, Resolved tt)
          else (rt_setMsg ("Error: " +:+ Number_toString (status res)) st,
                Resolved tt)
      end
  end.

(** Lines 91-101; the body, of whatever type, is not looked at. *)
Definition rt_logout {T} (fetch : Fetch T) (st0 : RawState)
  : RawState * Promise unit :=
  let st := rt_setMsg "" st0 in
  match api fetch "/auth/logout" post with
  | Rejected e => (st, Rejected e)
  | Resolved res =>
      if status res =? 204
      then (rt_setMsg "Logged out"
              (rt_setAccessToken JsNull (rt_setUser JsNull st)),
            Resolved tt)
      else (rt_setMsg ("Error: " +:+ Number_toString (status res)) st,
            Resolved tt)
  end.






(** *** Proof tactics *)

Ltac async_unfold :=
  unfold register, login, refresh, logout, AsyncM.bind, AsyncM.await,
    setMsg, setUser, setAccessToken.

Ltac status_cases :=
  repeat match goal with
         | |- context [N.eqb ?a ?b] =>
             destruct (N.eqb_spec a b); subst; try lia; try congruence
         end.

(** Case analysis on the settlement of the one [api] call of an operation. *)
Ltac op_cases :=
  async_unfold; cbn;
  match goal with
  | |- context [api ?f ?p ?o] =>
      let Hapi := fresh "Hapi" in
      destruct (api f p o) as [[? [?|]]|?] eqn:Hapi
  end;
  cbn in *.

(** ** Properties *)

(** *** Substring test *)

Lemma append_nil b : "" +:+ b = b.
Proof. reflexivity. Qed.

Lemma append_cons c a b : String c a +:+ b = String c (a +:+ b).
Proof. reflexivity. Qed.

Lemma prefix_spec n s :
  String.prefix n s = true <-> exists b, s = n +:+ b.
Proof.
  revert s. induction n as [|c n IH]; intros s.
  - destruct s; cbn; split; eauto.
  - destruct s as [|c' s]; cbn.
    + split; [done | intros [b Hb]; discriminate].
    + setoid_rewrite append_cons.
      destruct (ascii_dec c c') as [->|Hne].
      * rewrite IH. split; intros [b Hb]; exists b; congruence.
      * split; [done | intros [b Hb]; congruence].
Qed.

(** [includes] finds exactly the contiguous occurrences. *)
Lemma includes_spec s n :
  includes s n = true <-> exists a b, s = a +:+ n +:+ b.
Proof.
  induction s as [|c s IH]; cbn [includes].
  - destruct (String.prefix n "") eqn:Hp.
    + split; [intros _ | done].
      apply prefix_spec in Hp as [b Hb]. by exists "", b.
    + split; [done | intros (a & b & Hab)].
      destruct a; [|discriminate]. rewrite append_nil in Hab.
      assert (String.prefix n "" = true) by (apply prefix_spec; eauto).
      congruence.
  - destruct (String.prefix n (String c s)) eqn:Hp.
    + split; [intros _ | done].
      apply prefix_spec in Hp as [b Hb]. by exists "", b.
    + rewrite IH. split.
      * intros (a & b & ->). by exists (String c a), b.
      * intros (a & b & Hab). destruct a as [|c' a].
        -- rewrite append_nil in Hab.
           assert (String.prefix n (String c s) = true)
             by (apply prefix_spec; eauto).
           congruence.
        -- rewrite append_cons in Hab. exists a, b. congruence.
Qed.

Lemma includes_declares_json {T} (r : Response T) :
  includes (default "" (res_content_type r)) "application/json" = true
  <-> declares_json r.
Proof.
  unfold declares_json. rewrite includes_spec.
  destruct (res_content_type r) as [ct|]; cbn.
  - split; intros (a & b & Hab); exists a, b; congruence.
  - split; intros (a & b & Hab); [|discriminate].
    destruct a; [rewrite append_nil in Hab | rewrite append_cons in Hab];
      discriminate.
Qed.

(** C5: [register] classifies what the wrapper returned: 201 with a body
    signs the user in and reports "Registered"; 409 reports "Email already
    exists"; 400 reports "Invalid payload"; any other status reports
    "Error: " followed by the status in decimal. *)
Theorem register_classifies fetch st res :
  api fetch "/auth/register" (post_json (credentials st)) = Resolved res ->
  let r := register fetch st in
  r.2 = Resolved tt /\
  (forall d, status res = 201 -> data res = Some d ->
     AuthenticatedAs (data_user d) (data_accessToken d) r.1 /\
     msg r.1 = "Registered") /\
  (status res = 409 -> msg r.1 = "Email already exists") /\
  (status res = 400 -> msg r.1 = "Invalid payload") /\
  (status res <> 201 -> status res <> 409 -> status res <> 400 ->
     msg r.1 = "Error: " +:+ Number_toString (status res)).
Proof.
  intros Hres. async_unfold. cbn. rewrite Hres.
  destruct res as [code body']. cbn.
  split; [|split; [|split; [|split]]].
  - destruct (code =? 201), body'; status_cases; reflexivity.
  - intros d -> [= ->]. repeat split.
  - intros ->. reflexivity.
  - intros ->. reflexivity.
  - intros H1 H2 H3. destruct (N.eqb_spec code 201); [done|].
    status_cases. reflexivity.
Qed.


Lemma logout_clears_session_aux fetch st res :
  api fetch "/auth/logout" post = Resolved res ->
  status res = 204 ->
  Anonymous (logout fetch st).1.
Proof.
  intros Hres Hcode. async_unfold. cbn. rewrite Hres.
  destruct res as [code body']. cbn in *. subst code. split; reflexivity.
Qed.

(** When the wrapper returns status 204, [logout] ends in the Anonymous
    session with the message "Logged out", whatever the session was. *)
Theorem logout_clears_session fetch st res :
  api fetch "/auth/logout" post = Resolved res ->
  status res = 204 ->
  let r := logout fetch st in
  r.2 = Resolved tt /\ Anonymous r.1 /\ msg r.1 = "Logged out".
Proof.
  intros Hres Hcode. async_unfold. cbn. rewrite Hres.
  destruct res as [code body']. cbn in *. subst code. cbn.
  repeat split.
Qed.

(** C7: when the wrapper returns 200 with a body, [refresh] stores the
    body's user and the body's access token whatever the state held
    before, so also when the user is the one already stored. *)
Theorem refresh_replaces_credential fetch st res d :
  api fetch "/auth/refresh" post = Resolved res ->
  status res = 200 ->
  data res = Some d ->
  let r := refresh fetch st in
  r.2 = Resolved tt /\
  user r.1 = Some (data_user d) /\
  accessToken r.1 = Some (data_accessToken d) /\
  msg r.1 = "Refreshed".
Proof.
  intros Hres Hcode Hbody. async_unfold. cbn. rewrite Hres.
  destruct res as [code body']. cbn in *. subst code body'. cbn.
  repeat split.
Qed.

(** *** The frame of a failing call *)

Lemma only_msg_changed_session st st' :
  only_msg_changed st st' -> session_unchanged st st'.
Proof. intros [m ->]. split; reflexivity. Qed.

Lemma register_frame fetch st :
  (forall d, api fetch "/auth/register" (post_json (credentials st))
             <> Resolved {| status := 201; data := Some d |}) ->
  only_msg_changed st (register fetch st).1.
Proof.
  intros Hno. op_cases; status_cases; eexists; reflexivity.
Qed.

Lemma login_frame fetch st :
  (forall d, api fetch "/auth/login" (post_json (credentials st))
             <> Resolved {| status := 200; data := Some d |}) ->
  only_msg_changed st (login fetch st).1.
Proof.
  intros Hno. op_cases; status_cases; eexists; reflexivity.
Qed.

Lemma refresh_frame fetch st :
  (forall d, api fetch "/auth/refresh" post
             <> Resolved {| status := 200; data := Some d |}) ->
  only_msg_changed st (refresh fetch st).1.
Proof.
  intros Hno. op_cases; status_cases; eexists; reflexivity.
Qed.

Lemma logout_frame fetch st :
  settled_status (api fetch "/auth/logout" post) <> Some 204 ->
  only_msg_changed st (logout fetch st).1.
Proof.
  intros Hno. op_cases; status_cases; eexists; reflexivity.
Qed.

(** C2: an operation whose call did not come back with the operation's
    success status (201 for [register], 200 for [login] and [refresh],
    204 for [logout]) leaves [user] and [accessToken] as they were: the
    state differs from the prior one in the status message only. *)
Theorem failing_operation_keeps_session st :
  (forall fetch,
     settled_status (api fetch "/auth/register" (post_json (credentials st)))
       <> Some 201 ->
     let st' := (register fetch st).1 in
     session_unchanged st st' /\ only_msg_changed st st') /\
  (forall fetch,
     settled_status (api fetch "/auth/login" (post_json (credentials st)))
       <> Some 200 ->
     let st' := (login fetch st).1 in
     session_unchanged st st' /\ only_msg_changed st st') /\
  (forall fetch,
     settled_status (api fetch "/auth/refresh" post) <> Some 200 ->
     let st' := (refresh fetch st).1 in
     session_unchanged st st' /\ only_msg_changed st st') /\
  (forall fetch,
     settled_status (api fetch "/auth/logout" post) <> Some 204 ->
     let st' := (logout fetch st).1 in
     session_unchanged st st' /\ only_msg_changed st st').
Proof.
  split; [|split; [|split]]; intros fetch Hcode st';
    (assert (only_msg_changed st st') as Hframe;
     [| split; [by apply only_msg_changed_session | exact Hframe]]).
  - apply register_frame. intros d Hres. rewrite Hres in Hcode. by apply Hcode.
  - apply login_frame. intros d Hres. rewrite Hres in Hcode. by apply Hcode.
  - apply refresh_frame. intros d Hres. rewrite Hres in Hcode. by apply Hcode.
  - by apply logout_frame.
Qed.

(** C3: the success status with a null body is not a success: [register]
    on 201, [login] on 200 and [refresh] on 200 leave [user] and
    [accessToken] as they were and do not report the success message. *)
Theorem success_status_needs_body st :
  (forall fetch,
     api fetch "/auth/register" (post_json (credentials st))
       = Resolved {| status := 201; data := None |} ->
     session_unchanged st (register fetch st).1 /\
     msg (register fetch st).1 <> "Registered") /\
  (forall fetch,
     api fetch "/auth/login" (post_json (credentials st))
       = Resolved {| status := 200; data := None |} ->
     session_unchanged st (login fetch st).1 /\
     msg (login fetch st).1 <> "Logged in") /\
  (forall fetch,
     api fetch "/auth/refresh" post
       = Resolved {| status := 200; data := None |} ->
     session_unchanged st (refresh fetch st).1 /\
     msg (refresh fetch st).1 <> "Refreshed").
Proof.
  split; [|split]; intros fetch Hres.
  - split.
    + apply only_msg_changed_session, register_frame.
      intros d. rewrite Hres. discriminate.
    + async_unfold. cbn. rewrite Hres. cbn. discriminate.
  - split.
    + apply only_msg_changed_session, login_frame.
      intros d. rewrite Hres. discriminate.
    + async_unfold. cbn. rewrite Hres. cbn. discriminate.
  - split.
    + apply only_msg_changed_session, refresh_frame.
      intros d. rewrite Hres. discriminate.
    + async_unfold. cbn. rewrite Hres. cbn. discriminate.
Qed.

(** C10: the success status with a null body takes the generic branch:
    the message is "Error: 201" for [register] and "Error: 200" for
    [login] and [refresh]. *)
Theorem success_status_without_body_message st :
  (forall fetch,
     api fetch "/auth/register" (post_json (credentials st))
       = Resolved {| status := 201; data := None |} ->
     msg (register fetch st).1 = "Error: 201") /\
  (forall fetch,
     api fetch "/auth/login" (post_json (credentials st))
       = Resolved {| status := 200; data := None |} ->
     msg (login fetch st).1 = "Error: 200") /\
  (forall fetch,
     api fetch "/auth/refresh" post
       = Resolved {| status := 200; data := None |} ->
     msg (refresh fetch st).1 = "Error: 200").
Proof.
  split; [|split]; intros fetch Hres;
    async_unfold; cbn; rewrite Hres; reflexivity.
Qed.

(** C9: after a [logout] answered with 204, a second [logout] answered
    with any other status leaves the session Anonymous; it only reports
    "Error: " followed by that status. *)
Theorem logout_twice_stays_anonymous f1 f2 st res1 res2 :
  api f1 "/auth/logout" post = Resolved res1 ->
  status res1 = 204 ->
  api f2 "/auth/logout" post = Resolved res2 ->
  status res2 <> 204 ->
  let st1 := (logout f1 st).1 in
  let r := logout f2 st1 in
  Anonymous r.1 /\ msg r.1 = "Error: " +:+ Number_toString (status res2).
Proof.
  intros H1 Hc1 H2 Hc2 st1 r.
  destruct (logout_clears_session_aux f1 st res1 H1 Hc1) as [Hu Ht].
  assert (Hframe : session_unchanged st1 r.1).
  { apply only_msg_changed_session, logout_frame. rewrite H2. cbn. congruence. }
  destruct Hframe as [Hu' Ht'].
  split.
  - split; [rewrite Hu' | rewrite Ht']; assumption.
  - subst r. async_unfold. cbn. rewrite H2.
    destruct res2 as [code body']. cbn in *. status_cases. reflexivity.
Qed.

(** *** Network failure *)

Lemma post_valid : is_Some (api_headers post).
Proof. by eexists. Qed.

Lemma post_json_valid j : is_Some (api_headers (post_json j)).
Proof. by eexists. Qed.

Lemma api_valid {T} (fetch : Fetch T) path opts :
  is_Some (api_headers opts) ->
  api fetch path opts
  = PromiseM.bind (fetch (api_url path) (api_init opts)) api_read.
Proof. intros [h Hh]. unfold api, api_init. by rewrite Hh. Qed.

Lemma api_network_failure {T} (fetch : Fetch T) path opts e :
  fetch (api_url path) (api_init opts) = Rejected e ->
  is_Some (api_headers opts) ->
  api fetch path opts = Rejected e.
Proof. intros H Hvalid. rewrite api_valid by done. by rewrite H. Qed.

(** C4, as the code has it: a transport failure is not caught. Each
    operation empties the status message, then rejects with the failure of
    [fetch]; [user] and [accessToken] stay as they were. *)
Theorem network_failure_rejects st :
  (forall fetch,
     fetch (api_url "/auth/register")
           (api_init (post_json (credentials st)))
       = Rejected NetworkError ->
     let r := register fetch st in
     r.2 = Rejected NetworkError /\ msg r.1 = "" /\ session_unchanged st r.1) /\
  (forall fetch,
     fetch (api_url "/auth/login")
           (api_init (post_json (credentials st)))
       = Rejected NetworkError ->
     let r := login fetch st in
     r.2 = Rejected NetworkError /\ msg r.1 = "" /\ session_unchanged st r.1) /\
  (forall fetch,
     fetch (api_url "/auth/refresh") (api_init post)
       = Rejected NetworkError ->
     let r := refresh fetch st in
     r.2 = Rejected NetworkError /\ msg r.1 = "" /\ session_unchanged st r.1) /\
  (forall (fetch : Fetch Null),
     fetch (api_url "/auth/logout") (api_init post)
       = Rejected NetworkError ->
     let r := logout fetch st in
     r.2 = Rejected NetworkError /\ msg r.1 = "" /\ session_unchanged st r.1).
Proof.
  split; [|split; [|split]]; intros fetch Hnet;
    (apply api_network_failure in Hnet;
       [|apply post_json_valid || apply post_valid]);
    async_unfold; cbn; rewrite Hnet; cbn; repeat split.
Qed.

(** *** The session invariant *)

Lemma step_session_ok st ev :
  session_ok st -> session_ok (step st ev).
Proof.
  unfold session_ok, Anonymous, Authenticated, step.
  intros Hok. destruct ev; cbn [handler];
    try exact Hok; op_cases; status_cases;
    first [ exact Hok
          | right; split; discriminate
          | left; split; reflexivity ].
Qed.

Lemma run_session_ok evs st :
  session_ok st -> session_ok (run evs st).
Proof.
  revert st. induction evs as [|ev evs IH]; intros st Hok; cbn.
  - exact Hok.
  - apply IH, step_session_ok, Hok.
Qed.

Lemma reachable_run st :
  reachable st <->
  exists evs, st = run evs initial.
Proof.
  split.
  - induction 1 as [|st ev _ [evs ->]].
    + by exists [].
    + exists (evs ++ [ev])%list. unfold run. by rewrite fold_left_app.
  - intros [evs ->]. induction evs as [|ev evs IH] using rev_ind.
    + constructor.
    + unfold run. rewrite fold_left_app. cbn. by constructor.
Qed.

(** On answers of the declared type: whatever events the component has
    handled since it was mounted, operations that succeeded, failed or
    rejected included, its session is Anonymous or Authenticated. *)
Theorem session_never_partial evs :
  let st := run evs initial in
  Anonymous st \/ Authenticated st.
Proof.
  apply run_session_ok. left. split; reflexivity.
Qed.

(** *** The transport wrapper *)








(** ** Further properties of the operations *)

(** *** Classification by [login], [refresh] and [logout] *)

(** X1: [login] classifies what the wrapper returned: 200 with a body signs
    the user in and reports "Logged in"; 401 reports "Invalid credentials";
    400 reports "Invalid payload"; any other status reports "Error: "
    followed by the status. *)
Theorem login_classifies fetch st res :
  api fetch "/auth/login" (post_json (credentials st)) = Resolved res ->
  let r := login fetch st in
  r.2 = Resolved tt /\
  (forall d, status res = 200 -> data res = Some d ->
     AuthenticatedAs (data_user d) (data_accessToken d) r.1 /\
     msg r.1 = "Logged in") /\
  (status res = 401 -> msg r.1 = "Invalid credentials") /\
  (status res = 400 -> msg r.1 = "Invalid payload") /\
  (status res <> 200 -> status res <> 401 -> status res <> 400 ->
     msg r.1 = "Error: " +:+ Number_toString (status res)).
Proof.
  intros Hres. async_unfold. cbn. rewrite Hres.
  destruct res as [code body']. cbn.
  split; [|split; [|split; [|split]]].
  - destruct (code =? 200), body'; status_cases; reflexivity.
  - intros d -> [= ->]. repeat split.
  - intros ->. reflexivity.
  - intros ->. reflexivity.
  - intros H1 H2 H3. destruct (N.eqb_spec code 200); [done|].
    status_cases. reflexivity.
Qed.

(** X2: [refresh] classifies what the wrapper returned: 200 with a body
    stores the user and token and reports "Refreshed"; 401 reports
    "No/invalid refresh cookie"; every other status, 400 included, reports
    "Error: " followed by the status. *)
Theorem refresh_classifies fetch st res :
  api fetch "/auth/refresh" post = Resolved res ->
  let r := refresh fetch st in
  r.2 = Resolved tt /\
  (forall d, status res = 200 -> data res = Some d ->
     AuthenticatedAs (data_user d) (data_accessToken d) r.1 /\
     msg r.1 = "Refreshed") /\
  (status res = 401 -> msg r.1 = "No/invalid refresh cookie") /\
  (status res = 400 -> msg r.1 = "Error: 400") /\
  (status res <> 200 -> status res <> 401 ->
     msg r.1 = "Error: " +:+ Number_toString (status res)).
Proof.
  intros Hres. async_unfold. cbn. rewrite Hres.
  destruct res as [code body']. cbn.
  split; [|split; [|split; [|split]]].
  - destruct (code =? 200), body'; status_cases; reflexivity.
  - intros d -> [= ->]. repeat split.
  - intros ->. reflexivity.
  - intros ->. reflexivity.
  - intros H1 H2. destruct (N.eqb_spec code 200); [done|].
    status_cases. reflexivity.
Qed.

(** X3: [logout] on any status other than 204 resolves, reports "Error: "
    followed by the status and changes nothing but the message; a 401 or a
    400 gets no message of its own. *)
Theorem logout_classifies fetch st res :
  api fetch "/auth/logout" post = Resolved res ->
  status res <> 204 ->
  let r := logout fetch st in
  r.2 = Resolved tt /\
  r.1 = (setMsg ("Error: " +:+ Number_toString (status res)) st).1.
Proof.
  intros Hres Hcode. async_unfold. cbn. rewrite Hres.
  destruct res as [code body']. cbn in *.
  destruct (N.eqb_spec code 204); [done|]. split; reflexivity.
Qed.

(** *** Settlement and the status message *)

(** X4: an operation settles as its wrapper call does: it resolves when
    the call resolves, whatever the status, and rejects with the same fault
    when the call rejects; it raises nothing of its own and catches
    nothing. *)
Theorem operations_settle_as_wrapper st :
  (forall fetch,
     (register fetch st).2
     = settles_like (api fetch "/auth/register" (post_json (credentials st)))) /\
  (forall fetch,
     (login fetch st).2
     = settles_like (api fetch "/auth/login" (post_json (credentials st)))) /\
  (forall fetch,
     (refresh fetch st).2 = settles_like (api fetch "/auth/refresh" post)) /\
  (forall fetch,
     (logout fetch st).2 = settles_like (api fetch "/auth/logout" post)).
Proof.
  split; [|split; [|split]]; intros fetch;
    op_cases; status_cases; reflexivity.
Qed.

Lemma error_message_not_empty n : "Error: " +:+ Number_toString n <> "".
Proof. rewrite append_cons. discriminate. Qed.

Lemma register_msg_empty fetch st :
  msg (register fetch st).1 = "" <->
  exists e, (register fetch st).2 = Rejected e.
Proof.
  op_cases; status_cases; cbn; split; try discriminate; eauto;
    try (intros [e He]; discriminate);
    intros H; by apply error_message_not_empty in H.
Qed.

Lemma login_msg_empty fetch st :
  msg (login fetch st).1 = "" <->
  exists e, (login fetch st).2 = Rejected e.
Proof.
  op_cases; status_cases; cbn; split; try discriminate; eauto;
    try (intros [e He]; discriminate);
    intros H; by apply error_message_not_empty in H.
Qed.

Lemma refresh_msg_empty fetch st :
  msg (refresh fetch st).1 = "" <->
  exists e, (refresh fetch st).2 = Rejected e.
Proof.
  op_cases; status_cases; cbn; split; try discriminate; eauto;
    try (intros [e He]; discriminate);
    intros H; by apply error_message_not_empty in H.
Qed.

Lemma logout_msg_empty fetch st :
  msg (logout fetch st).1 = "" <->
  exists e, (logout fetch st).2 = Rejected e.
Proof.
  op_cases; status_cases; cbn; split; try discriminate; eauto;
    try (intros [e He]; discriminate);
    intros H; by apply error_message_not_empty in H.
Qed.

(** X5: after an operation the status message is empty exactly when the
    operation rejected: every resolved operation leaves a message, a
    rejected one leaves none. *)
Theorem message_empty_iff_rejected st :
  (forall fetch,
     msg (register fetch st).1 = "" <->
     exists e, (register fetch st).2 = Rejected e) /\
  (forall fetch,
     msg (login fetch st).1 = "" <->
     exists e, (login fetch st).2 = Rejected e) /\
  (forall fetch,
     msg (refresh fetch st).1 = "" <->
     exists e, (refresh fetch st).2 = Rejected e) /\
  (forall fetch,
     msg (logout fetch st).1 = "" <->
     exists e, (logout fetch st).2 = Rejected e).
Proof.
  split; [|split; [|split]]; intros fetch.
  - apply register_msg_empty.
  - apply login_msg_empty.
  - apply refresh_msg_empty.
  - apply logout_msg_empty.
Qed.

Lemma error_message_head n :
  exists s, "Error: " +:+ Number_toString n = String "E" s.
Proof. rewrite append_cons. by eexists. Qed.

Ltac not_error_message :=
  match goal with
  | H : "Error: " +:+ Number_toString ?n = _ |- _ =>
      destruct (error_message_head n) as [? Hhead];
      rewrite Hhead in H; discriminate
  end.

(** X6: the success message is shown exactly on a success: "Registered"
    exactly when the wrapper returned 201 with a body, "Logged in" and
    "Refreshed" exactly when it returned 200 with a body, "Logged out"
    exactly when it returned 204. *)
Theorem success_message_iff_success st :
  (forall fetch,
     msg (register fetch st).1 = "Registered" <->
     exists d, api fetch "/auth/register" (post_json (credentials st))
               = Resolved {| status := 201; data := Some d |}) /\
  (forall fetch,
     msg (login fetch st).1 = "Logged in" <->
     exists d, api fetch "/auth/login" (post_json (credentials st))
               = Resolved {| status := 200; data := Some d |}) /\
  (forall fetch,
     msg (refresh fetch st).1 = "Refreshed" <->
     exists d, api fetch "/auth/refresh" post
               = Resolved {| status := 200; data := Some d |}) /\
  (forall fetch,
     msg (logout fetch st).1 = "Logged out" <->
     settled_status (api fetch "/auth/logout" post) = Some 204).
Proof.
  split; [|split; [|split]]; intros fetch;
    op_cases; status_cases; cbn; split;
    try (intros [d [=]]; done); try (intros [=]; done);
    try discriminate; eauto; intros Hmsg; not_error_message.
Qed.

(** *** What the operations leave alone *)

(** X7: no operation, succeeding, failing or rejecting, changes the mode,
    the email or the password held by the component. *)
Theorem operations_keep_inputs st :
  (forall fetch, inputs_unchanged st (register fetch st).1) /\
  (forall fetch, inputs_unchanged st (login fetch st).1) /\
  (forall fetch, inputs_unchanged st (refresh fetch st).1) /\
  (forall fetch, inputs_unchanged st (logout fetch st).1).
Proof.
  split; [|split; [|split]]; intros fetch;
    op_cases; status_cases; repeat split.
Qed.

(** *** The request of an operation *)

Lemma api_init_credentials st :
  api_init (post_json (credentials st)) = credentials_request st.
Proof. reflexivity. Qed.

Lemma api_init_post : api_init post = cookie_request.
Proof. reflexivity. Qed.

Lemma api_ext {T} (fetch fetch' : Fetch T) path opts :
  fetch (api_url path) (api_init opts) = fetch' (api_url path) (api_init opts) ->
  api fetch path opts = api fetch' path opts.
Proof.
  unfold api, api_init. destruct (api_headers opts); cbn; [|done].
  by intros ->.
Qed.

(** X8: an operation consults the network for one request only. For
    [register] and [login] it is a POST to the base origin followed by
    [/auth/register] or [/auth/login], credentials included, with the single
    header content-type: application/json and the serialised
    [{ email, password }] of the current inputs as body; for [refresh] and
    [logout] it is a POST to [/auth/refresh] or [/auth/logout], credentials
    included, with no header and no body. Two networks that answer this
    request alike give the same outcome. *)
Theorem operations_single_request st :
  (forall fetch fetch',
     fetch (API_BASE +:+ "/auth/register") (credentials_request st)
     = fetch' (API_BASE +:+ "/auth/register") (credentials_request st) ->
     register fetch st = register fetch' st) /\
  (forall fetch fetch',
     fetch (API_BASE +:+ "/auth/login") (credentials_request st)
     = fetch' (API_BASE +:+ "/auth/login") (credentials_request st) ->
     login fetch st = login fetch' st) /\
  (forall fetch fetch',
     fetch (API_BASE +:+ "/auth/refresh") cookie_request
     = fetch' (API_BASE +:+ "/auth/refresh") cookie_request ->
     refresh fetch st = refresh fetch' st) /\
  (forall fetch fetch' : Fetch Null,
     fetch (API_BASE +:+ "/auth/logout") cookie_request
     = fetch' (API_BASE +:+ "/auth/logout") cookie_request ->
     logout fetch st = logout fetch' st).
Proof.
  split; [|split; [|split]]; intros fetch fetch' Hsame.
  - unfold register.
    by rewrite (api_ext fetch fetch' "/auth/register" (post_json (credentials st))).
  - unfold login.
    by rewrite (api_ext fetch fetch' "/auth/login" (post_json (credentials st))).
  - unfold refresh. by rewrite (api_ext fetch fetch' "/auth/refresh" post).
  - unfold logout. by rewrite (api_ext fetch fetch' "/auth/logout" post).
Qed.

(** *** Repeating an operation *)

Lemma register_keeps_credentials fetch st :
  credentials (register fetch st).1 = credentials st.
Proof. op_cases; status_cases; reflexivity. Qed.

Lemma login_keeps_credentials fetch st :
  credentials (login fetch st).1 = credentials st.
Proof. op_cases; status_cases; reflexivity. Qed.

Lemma register_idempotent fetch st :
  register fetch (register fetch st).1 = register fetch st.
Proof.
  pose proof (register_keeps_credentials fetch st) as Hc.
  set (r := register fetch st) in *.
  unfold register. rewrite Hc. subst r.
  op_cases; status_cases; reflexivity.
Qed.

Lemma login_idempotent fetch st :
  login fetch (login fetch st).1 = login fetch st.
Proof.
  pose proof (login_keeps_credentials fetch st) as Hc.
  set (r := login fetch st) in *.
  unfold login. rewrite Hc. subst r.
  op_cases; status_cases; reflexivity.
Qed.

Lemma refresh_idempotent fetch st :
  refresh fetch (refresh fetch st).1 = refresh fetch st.
Proof. op_cases; status_cases; reflexivity. Qed.

Lemma logout_idempotent fetch st :
  logout fetch (logout fetch st).1 = logout fetch st.
Proof. op_cases; status_cases; reflexivity. Qed.

(** X9: the operations are idempotent against an unchanged answer: running
    an operation a second time on the state it produced, with the network
    answering as before, gives the same state and the same settlement. *)
Theorem operations_idempotent st :
  (forall fetch, register fetch (register fetch st).1 = register fetch st) /\
  (forall fetch, login fetch (login fetch st).1 = login fetch st) /\
  (forall fetch, refresh fetch (refresh fetch st).1 = refresh fetch st) /\
  (forall fetch, logout fetch (logout fetch st).1 = logout fetch st).
Proof.
  split; [|split; [|split]]; intros fetch.
  - apply register_idempotent.
  - apply login_idempotent.
  - apply refresh_idempotent.
  - apply logout_idempotent.
Qed.

(** *** Runs *)

Lemma api_origin {T} (fetch : Fetch T) path opts res :
  api fetch path opts = Resolved res ->
  exists r,
    fetch (api_url path) (api_init opts) = Resolved r /\
    status res = res_status r /\
    (data res = None \/ res_json r = Resolved (data res)).
Proof.
  unfold api, api_init. destruct (api_headers opts) as [h|]; cbn;
    [|discriminate].
  destruct (fetch _ _) as [r|e]; cbn; [|discriminate].
  unfold api_read.
  destruct (includes _ _); [destruct (res_json r) eqn:Hj; cbn|];
    intros [= <-]; exists r; cbn; eauto.
Qed.

Lemma never_status_settled {T} code (fetch : Fetch T) path opts :
  never_status code fetch ->
  settled_status (api fetch path opts) <> Some code.
Proof.
  intros Hnever. destruct (api fetch path opts) as [res|e] eqn:Hapi; cbn;
    [|discriminate].
  apply api_origin in Hapi as (r & Hr & Hs & _).
  intros [= Hcode]. apply (Hnever _ _ _ Hr). congruence.
Qed.

Lemma session_unchanged_trans st1 st2 st3 :
  session_unchanged st1 st2 -> session_unchanged st2 st3 ->
  session_unchanged st1 st3.
Proof. intros [? ?] [? ?]. split; congruence. Qed.

Lemma failing_step_keeps_session st ev :
  event_fails ev -> session_unchanged st (step st ev).
Proof.
  destruct ev as [m|e|p|fetch|fetch|fetch|fetch]; cbn [event_fails];
    intros Hfail; unfold step; cbn [handler];
    try (split; reflexivity); apply only_msg_changed_session.
  - apply register_frame. intros d Hres.
    eapply never_status_settled; [exact Hfail|]. by rewrite Hres.
  - apply login_frame. intros d Hres.
    eapply never_status_settled; [exact Hfail|]. by rewrite Hres.
  - apply refresh_frame. intros d Hres.
    eapply never_status_settled; [exact Hfail|]. by rewrite Hres.
  - apply logout_frame. by apply never_status_settled.
Qed.

(** X10: a run in which no operation is answered with its success status
    keeps [user] and [accessToken] from start to end, whatever is edited in
    between and however the operations fail or reject. *)
Theorem failing_run_keeps_session evs st :
  Forall event_fails evs -> session_unchanged st (run evs st).
Proof.
  intros Hall. revert st. induction Hall as [|ev evs Hev _ IH]; intros st; cbn.
  - split; reflexivity.
  - eapply session_unchanged_trans; [|apply IH].
    by apply failing_step_keeps_session.
Qed.

Lemma anonymous_step st ev :
  event_does_not_authenticate ev -> Anonymous st -> Anonymous (step st ev).
Proof.
  intros Hev [Hu0 Ht0].
  destruct ev as [m|e|p|fetch|fetch|fetch|fetch].
  1-3: split; assumption.
  1-3: match goal with
       | |- Anonymous (step ?s ?ev) =>
           destruct (failing_step_keeps_session s ev Hev) as [Hu Ht]
       end; split; congruence.
  unfold step. cbn [handler].
  op_cases; status_cases; split; assumption || reflexivity.
Qed.

(** X11: nothing but a server success authenticates: an Anonymous session
    stays Anonymous through every run in which no [register] is answered
    with 201 and no [login] or [refresh] with 200. *)
Theorem no_authentication_without_success evs st :
  Anonymous st ->
  Forall event_does_not_authenticate evs ->
  Anonymous (run evs st).
Proof.
  intros Hanon Hall. revert st Hanon.
  induction Hall as [|ev evs Hev _ IH]; intros st Hanon; cbn.
  - exact Hanon.
  - apply IH. by apply anonymous_step.
Qed.

Lemma api_body_origin (P : AuthBody -> Prop) fetch path opts code d :
  sends_only P fetch ->
  api fetch path opts = Resolved {| status := code; data := Some d |} ->
  P d.
Proof.
  intros Hsends Hapi. apply api_origin in Hapi as (r & Hr & _ & Hd).
  cbn in Hd. destruct Hd as [Hd|Hd]; [discriminate|].
  by apply (Hsends _ _ _ _ Hr).
Qed.

Lemma session_from_step P st ev :
  event_sends_only P ev -> session_from P st -> session_from P (step st ev).
Proof.
  intros Hev Hfrom. unfold step.
  destruct ev as [m|e|p|fetch|fetch|fetch|fetch]; cbn [handler event_sends_only] in *;
    try exact Hfrom.
  1-3: op_cases; status_cases; try exact Hfrom;
       (right; eexists; split; [eapply api_body_origin; eassumption|];
        split; reflexivity).
  op_cases; status_cases;
    first [exact Hfrom | left; split; reflexivity].
Qed.

(** X12: the stored user and token always come from one and the same
    response body: if every body the servers of a run deliver satisfies a
    property, the session after the run is empty or is the user and the
    token of a single body with that property. *)
Theorem session_comes_from_one_body (P : AuthBody -> Prop) evs :
  Forall (event_sends_only P) evs ->
  session_from P (run evs initial).
Proof.
  intros Hall.
  assert (Hgen : forall st, session_from P st -> session_from P (run evs st)).
  { induction Hall as [|ev evs Hev _ IH]; intros st Hfrom; cbn.
    - exact Hfrom.
    - apply IH. by apply session_from_step. }
  apply Hgen. left. split; reflexivity.
Qed.

(** *** The view *)

Lemma canSubmit_spec st :
  canSubmit st = true <-> email st <> "" /\ password st <> "".
Proof.
  unfold canSubmit. destruct (email st), (password st); cbn;
    split; try discriminate; try done; intros [? ?]; done.
Qed.

(** X13: the submit button sends nothing while an input is empty: with an
    empty email or an empty password a click leaves the state as it is and
    consults no network; with both filled in it runs [register] in register
    mode and [login] in login mode. *)
Theorem submit_needs_credentials fetch st :
  (email st = "" \/ password st = "" ->
     click_submit fetch st = (st, Resolved tt)) /\
  (email st <> "" -> password st <> "" ->
     click_submit fetch st
     = match mode st with
       | ModeRegister => register fetch st
       | ModeLogin => login fetch st
       end).
Proof.
  unfold click_submit, render. cbn [submit_disabled]. split.
  - intros Hempty.
    destruct (canSubmit st) eqn:Hcan; [|reflexivity].
    apply canSubmit_spec in Hcan as [? ?]. by destruct Hempty.
  - intros He Hp.
    assert (canSubmit st = true) as -> by (by apply canSubmit_spec).
    cbn. by destruct (mode st).
Qed.

Lemma or_dash_error n :
  or_dash ("Error: " +:+ Number_toString n) = "Error: " +:+ Number_toString n.
Proof. destruct (error_message_head n) as [s ->]. reflexivity. Qed.

Lemma error_message_not_dash n : "Error: " +:+ Number_toString n <> "-".
Proof. destruct (error_message_head n) as [s ->]. discriminate. Qed.

Ltac status_pane :=
  op_cases; status_cases; cbn; rewrite ?or_dash_error;
  (split; [reflexivity|]);
  (split;
   [ first [ discriminate
           | by eauto
           | intros Hdash; by apply error_message_not_dash in Hdash ]
   | first [ done | intros [? [=]] ] ]).

(** X14: what the status pane shows after an operation: the message of a
    resolved operation, and a dash after a rejected one. The dash appears
    in no other case, so a transport failure looks like a component that
    has not done anything yet. *)
Theorem status_pane_after_operation st :
  (forall fetch, let r := register fetch st in
     status_text (render r.1)
     = match r.2 with Resolved _ => msg r.1 | Rejected _ => "-" end /\
     (status_text (render r.1) = "-" <-> exists e, r.2 = Rejected e)) /\
  (forall fetch, let r := login fetch st in
     status_text (render r.1)
     = match r.2 with Resolved _ => msg r.1 | Rejected _ => "-" end /\
     (status_text (render r.1) = "-" <-> exists e, r.2 = Rejected e)) /\
  (forall fetch, let r := refresh fetch st in
     status_text (render r.1)
     = match r.2 with Resolved _ => msg r.1 | Rejected _ => "-" end /\
     (status_text (render r.1) = "-" <-> exists e, r.2 = Rejected e)) /\
  (forall fetch, let r := logout fetch st in
     status_text (render r.1)
     = match r.2 with Resolved _ => msg r.1 | Rejected _ => "-" end /\
     (status_text (render r.1) = "-" <-> exists e, r.2 = Rejected e)).
Proof.
  split; [|split; [|split]]; intros fetch r; subst r; status_pane.
Qed.

(** X15: a success whose body carries the empty string as access token
    leaves the session Authenticated while the token pane shows the dash of
    a missing token; the user pane shows the email of the body's user. *)
Theorem empty_token_shown_as_missing st d :
  data_accessToken d = "" ->
  (forall fetch,
     api fetch "/auth/register" (post_json (credentials st))
       = Resolved {| status := 201; data := Some d |} ->
     let v := render (register fetch st).1 in
     Authenticated (register fetch st).1 /\
     token_text v = "-" /\ user_text v = user_email (data_user d)) /\
  (forall fetch,
     api fetch "/auth/login" (post_json (credentials st))
       = Resolved {| status := 200; data := Some d |} ->
     let v := render (login fetch st).1 in
     Authenticated (login fetch st).1 /\
     token_text v = "-" /\ user_text v = user_email (data_user d)) /\
  (forall fetch,
     api fetch "/auth/refresh" post
       = Resolved {| status := 200; data := Some d |} ->
     let v := render (refresh fetch st).1 in
     Authenticated (refresh fetch st).1 /\
     token_text v = "-" /\ user_text v = user_email (data_user d)).
Proof.
  intros Htok.
  split; [|split]; intros fetch Hres v; subst v;
    async_unfold; cbn; rewrite Hres; cbn; rewrite Htok;
    (split; [split; discriminate | split; reflexivity]).
Qed.

(** *** From the response to the session *)

Lemma api_unparsable {T} (fetch : Fetch T) path opts r e :
  fetch (api_url path) (api_init opts) = Resolved r ->
  declares_json r -> res_json r = Rejected e ->
  is_Some (api_headers opts) ->
  api fetch path opts = Rejected e.
Proof.
  intros Hr Hct Hj Hvalid. rewrite api_valid by done. rewrite Hr. cbn.
  unfold api_read.
  apply includes_declares_json in Hct. by rewrite Hct, Hj.
Qed.

Lemma api_not_json {T} (fetch : Fetch T) path opts r :
  fetch (api_url path) (api_init opts) = Resolved r ->
  ~ declares_json r ->
  is_Some (api_headers opts) ->
  api fetch path opts = Resolved {| status := res_status r; data := None |}.
Proof.
  intros Hr Hct Hvalid. rewrite api_valid by done. rewrite Hr. cbn.
  unfold api_read.
  destruct (includes _ _) eqn:Hinc; [|reflexivity].
  by apply includes_declares_json in Hinc.
Qed.

(** X16: a response that declares JSON and whose body does not parse makes
    the operation reject with the parse fault, whatever the status: the
    message is left empty and the session untouched. In particular a 204
    of this kind does not log out. *)
Theorem unparsable_body_rejects_operation st e :
  (forall fetch r,
     fetch (API_BASE +:+ "/auth/register") (credentials_request st) = Resolved r ->
     declares_json r -> res_json r = Rejected e ->
     register fetch st = ((setMsg "" st).1, Rejected e)) /\
  (forall fetch r,
     fetch (API_BASE +:+ "/auth/login") (credentials_request st) = Resolved r ->
     declares_json r -> res_json r = Rejected e ->
     login fetch st = ((setMsg "" st).1, Rejected e)) /\
  (forall fetch r,
     fetch (API_BASE +:+ "/auth/refresh") cookie_request = Resolved r ->
     declares_json r -> res_json r = Rejected e ->
     refresh fetch st = ((setMsg "" st).1, Rejected e)) /\
  (forall (fetch : Fetch Null) r,
     fetch (API_BASE +:+ "/auth/logout") cookie_request = Resolved r ->
     declares_json r -> res_json r = Rejected e ->
     logout fetch st = ((setMsg "" st).1, Rejected e)).
Proof.
  split; [|split; [|split]]; intros fetch r Hr Hct Hj.
  - pose proof (api_unparsable fetch "/auth/register"
                  (post_json (credentials st)) r e Hr Hct Hj
                  (post_json_valid _)) as Hapi.
    async_unfold. cbn. by rewrite Hapi.
  - pose proof (api_unparsable fetch "/auth/login"
                  (post_json (credentials st)) r e Hr Hct Hj
                  (post_json_valid _)) as Hapi.
    async_unfold. cbn. by rewrite Hapi.
  - pose proof (api_unparsable fetch "/auth/refresh" post r e Hr Hct Hj
                  post_valid) as Hapi.
    async_unfold. cbn. by rewrite Hapi.
  - pose proof (api_unparsable fetch "/auth/logout" post r e Hr Hct Hj
                  post_valid) as Hapi.
    async_unfold. cbn. by rewrite Hapi.
Qed.

(** X17: the success status alone does not authenticate when the response
    does not declare JSON: whatever its body holds, [register] reports
    "Error: 201" and [login] and [refresh] report "Error: 200", and the
    state is otherwise as before. *)
Theorem success_needs_json_content_type st :
  (forall fetch r,
     fetch (API_BASE +:+ "/auth/register") (credentials_request st) = Resolved r ->
     ~ declares_json r -> res_status r = 201 ->
     register fetch st = ((setMsg "Error: 201" st).1, Resolved tt)) /\
  (forall fetch r,
     fetch (API_BASE +:+ "/auth/login") (credentials_request st) = Resolved r ->
     ~ declares_json r -> res_status r = 200 ->
     login fetch st = ((setMsg "Error: 200" st).1, Resolved tt)) /\
  (forall fetch r,
     fetch (API_BASE +:+ "/auth/refresh") cookie_request = Resolved r ->
     ~ declares_json r -> res_status r = 200 ->
     refresh fetch st = ((setMsg "Error: 200" st).1, Resolved tt)).
Proof.
  split; [|split]; intros fetch r Hr Hct Hcode.
  - pose proof (api_not_json fetch "/auth/register"
                  (post_json (credentials st)) r Hr Hct
                  (post_json_valid _)) as Hapi.
    async_unfold. cbn. rewrite Hapi, Hcode. reflexivity.
  - pose proof (api_not_json fetch "/auth/login"
                  (post_json (credentials st)) r Hr Hct
                  (post_json_valid _)) as Hapi.
    async_unfold. cbn. rewrite Hapi, Hcode. reflexivity.
  - pose proof (api_not_json fetch "/auth/refresh" post r Hr Hct post_valid)
      as Hapi.
    async_unfold. cbn. rewrite Hapi, Hcode. reflexivity.
Qed.

(** ** The 204 of [logout], at the level of the response *)

(** C6, as the code has it: a 204 on which the wrapper resolves (it does
    not declare JSON, or its body parses) logs out: the session is
    Anonymous and the message "Logged out", whatever the session was. A 204
    that declares JSON with a body that does not parse makes [logout]
    reject with the parse fault; the message is emptied and the session
    kept. *)
Theorem logout_204_clears_session (fetch : Fetch Null) st r :
  fetch (API_BASE +:+ "/auth/logout") cookie_request = Resolved r ->
  res_status r = 204 ->
  ((declares_json r -> exists d, res_json r = Resolved d) ->
     let x := logout fetch st in
     x.2 = Resolved tt /\ Anonymous x.1 /\ msg x.1 = "Logged out") /\
  (forall e, declares_json r -> res_json r = Rejected e ->
     logout fetch st = ((setMsg "" st).1, Rejected e)).
Proof.
  intros Hr Hcode. split.
  - intros Hparse.
    assert (exists d, api fetch "/auth/logout" post
                      = Resolved {| status := 204; data := d |}) as [d Hapi].
    { rewrite api_valid by apply post_valid.
      change (fetch (api_url "/auth/logout") (api_init post) = Resolved r)
        in Hr.
      rewrite Hr. cbn.
      unfold api_read. rewrite Hcode.
      destruct (includes _ _) eqn:Hct; [|by eexists].
      apply includes_declares_json, Hparse in Hct as [d ->]. by eexists. }
    by apply (logout_clears_session fetch st _ Hapi).
  - intros e Hct Hj.
    pose proof (api_unparsable fetch "/auth/logout" post r e Hr Hct Hj
                  post_valid) as Hapi.
    async_unfold. cbn. by rewrite Hapi.
Qed.

(** ** The session at run time *)







(** *** The typed operations are the run-time ones on typed answers *)

Lemma api_of_fetch fetch path opts :
  api (of_fetch fetch) path opts
  = match api fetch path opts with
    | Resolved res =>
        Resolved {| status := status res; data := of_body <$> data res |}
    | Rejected e => Rejected e
    end.
Proof.
  unfold api, of_fetch. destruct (api_headers opts); [|reflexivity].
  destruct (fetch _ _) as [r|e]; cbn; [|reflexivity].
  unfold api_read. cbn.
  destruct (includes _ _); [|reflexivity].
  destruct (res_json r); reflexivity.
Qed.

Lemma rt_register_of_typed fetch st :
  rt_register (of_fetch fetch) (of_state st)
  = (of_state (register fetch st).1, (register fetch st).2).
Proof.
  unfold rt_register. change (rt_credentials (of_state st)) with (credentials st).
  rewrite api_of_fetch. op_cases; status_cases; reflexivity.
Qed.

Lemma rt_login_of_typed fetch st :
  rt_login (of_fetch fetch) (of_state st)
  = (of_state (login fetch st).1, (login fetch st).2).
Proof.
  unfold rt_login. change (rt_credentials (of_state st)) with (credentials st).
  rewrite api_of_fetch. op_cases; status_cases; reflexivity.
Qed.

Lemma rt_refresh_of_typed fetch st :
  rt_refresh (of_fetch fetch) (of_state st)
  = (of_state (refresh fetch st).1, (refresh fetch st).2).
Proof.
  unfold rt_refresh. rewrite api_of_fetch. op_cases; status_cases; reflexivity.
Qed.

Lemma rt_logout_of_typed (fetch : Fetch Null) st :
  rt_logout fetch (of_state st)
  = (of_state (logout fetch st).1, (logout fetch st).2).
Proof. unfold rt_logout. op_cases; status_cases; reflexivity. Qed.
End Client.


(** ** Concrete runs *)

Section Runs.
Import Sample.

Example ex_includes : includes "application/json; charset=utf-8" "application/json" = true.
Proof. reflexivity. Qed.
Example ex_toString : Number_toString 500 = "500".
Proof. reflexivity. Qed.
Example ex_toString0 : Number_toString 0 = "0".
Proof. reflexivity. Qed.
Example ex_lower : lower "Content-Type" = "content-type".
Proof. reflexivity. Qed.
Example ex_stringify :
  Sample.stringify (credentials initial)
  = "{" +:+ Sample.quote +:+ "email" +:+ Sample.quote +:+ ":"
        +:+ Sample.quote +:+ "a@test.com" +:+ Sample.quote +:+ ","
        +:+ Sample.quote +:+ "password" +:+ Sample.quote +:+ ":"
        +:+ Sample.quote +:+ "Passw0rd!" +:+ Sample.quote +:+ "}".
Proof. reflexivity. Qed.


(** A 201 with a body registers; a 409 only sets the message. *)
Lemma register_classifies_witness :
  (let r := register base stringify (answers (json_response 201 (Some body1))) initial in
   AuthenticatedAs u1 "tok1" r.1 /\ msg r.1 = "Registered") /\
  (let r := register base stringify (answers (empty_response 409)) initial in
   msg r.1 = "Email already exists") /\
  (let r := register base stringify (answers (empty_response 400)) initial in
   msg r.1 = "Invalid payload") /\
  (let r := register base stringify (answers (empty_response 503)) initial in
   msg r.1 = "Error: 503").
Proof.
  split; [|split; [|split]].
  - pose proof (register_classifies base stringify
                  (answers (json_response 201 (Some body1))) initial
                  {| status := 201; data := Some body1 |} eq_refl)
      as (_ & H & _).
    exact (H body1 eq_refl eq_refl).
  - pose proof (register_classifies base stringify
                  (answers (empty_response 409)) initial
                  {| status := 409; data := None |} eq_refl)
      as (_ & _ & H & _).
    exact (H eq_refl).
  - pose proof (register_classifies base stringify
                  (answers (empty_response 400)) initial
                  {| status := 400; data := None |} eq_refl)
      as (_ & _ & _ & H & _).
    exact (H eq_refl).
  - pose proof (register_classifies base stringify
                  (answers (empty_response 503)) initial
                  {| status := 503; data := None |} eq_refl)
      as (_ & _ & _ & _ & H).
    apply H; cbn; lia.
Defined.

(** Logging out of a signed-in session. *)
Lemma logout_clears_session_witness :
  let r := logout base stringify (answers (empty_response 204)) signed_in in
  r.2 = Resolved tt /\ Anonymous r.1 /\ msg r.1 = "Logged out".
Proof.
  apply (logout_clears_session base stringify
           (answers (empty_response 204)) signed_in
           {| status := 204; data := None |}); reflexivity.
Defined.

(** The server returns the stored user with a new token. *)
Lemma refresh_replaces_credential_witness :
  let r := refresh base stringify (answers (json_response 200 (Some body2))) signed_in in
  user signed_in = Some (data_user body2) /\
  accessToken signed_in = Some "tok1" /\
  accessToken r.1 = Some "tok2".
Proof.
  pose proof (refresh_replaces_credential base stringify
                (answers (json_response 200 (Some body2))) signed_in
                {| status := 200; data := Some body2 |} body2
                eq_refl eq_refl eq_refl) as (_ & _ & H & _).
  split; [reflexivity | split; [reflexivity | exact H]].
Defined.

(** Failing calls on a signed-in session. *)
Lemma failing_operation_keeps_session_witness :
  session_unchanged signed_in
    (register base stringify (answers (empty_response 409)) signed_in).1 /\
  session_unchanged signed_in
    (login base stringify (answers (empty_response 401)) signed_in).1 /\
  session_unchanged signed_in
    (refresh base stringify (answers (broken_response 401)) signed_in).1 /\
  session_unchanged signed_in
    (logout base stringify (answers (empty_response 500)) signed_in).1.
Proof.
  destruct (failing_operation_keeps_session base stringify signed_in)
    as (Hreg & Hlogin & Hrefresh & Hlogout).
  split; [|split; [|split]].
  - apply (Hreg (answers (empty_response 409))). cbn. discriminate.
  - apply (Hlogin (answers (empty_response 401))). cbn. discriminate.
  - apply (Hrefresh (answers (broken_response 401))). cbn. discriminate.
  - apply (Hlogout (answers (empty_response 500))). cbn. discriminate.
Defined.

(** The success status with the JSON body [null]. *)
Lemma success_status_needs_body_witness :
  session_unchanged initial
    (register base stringify (answers (json_response 201 None)) initial).1 /\
  session_unchanged signed_in
    (login base stringify (answers (json_response 200 None)) signed_in).1 /\
  session_unchanged signed_in
    (refresh base stringify (answers (empty_response 200)) signed_in).1.
Proof.
  split; [|split].
  - apply (success_status_needs_body base stringify initial).
    reflexivity.
  - apply (success_status_needs_body base stringify signed_in).
    reflexivity.
  - apply (success_status_needs_body base stringify signed_in).
    reflexivity.
Defined.

Lemma success_status_without_body_message_witness :
  msg (register base stringify (answers (json_response 201 None)) initial).1 = "Error: 201" /\
  msg (login base stringify (answers (json_response 200 None)) initial).1 = "Error: 200" /\
  msg (refresh base stringify (answers (empty_response 200)) signed_in).1 = "Error: 200".
Proof.
  split; [|split].
  - apply (success_status_without_body_message base stringify initial).
    reflexivity.
  - apply (success_status_without_body_message base stringify initial).
    reflexivity.
  - apply (success_status_without_body_message base stringify signed_in).
    reflexivity.
Defined.

(** Two logouts in a row, the second answered with 401. *)
Lemma logout_twice_stays_anonymous_witness :
  let st1 := (logout base stringify (answers (empty_response 204)) signed_in).1 in
  let r := logout base stringify (answers (empty_response 401)) st1 in
  Anonymous r.1 /\ msg r.1 = "Error: 401".
Proof.
  apply (logout_twice_stays_anonymous base stringify
           (answers (empty_response 204)) (answers (empty_response 401))
           signed_in
           {| status := 204; data := None |}
           {| status := 401; data := None |});
    [reflexivity | reflexivity | reflexivity | cbn; lia].
Defined.

(** C4, as stated, fails: with the network down [register] does not
    resolve. It rejects with the transport failure and the message is left
    empty, not set to an error text. *)
Lemma network_failure_not_caught :
  let r := register base stringify offline initial in
  r.2 = Rejected NetworkError /\ r.2 <> Resolved tt /\ msg r.1 = "".
Proof. repeat split. discriminate. Qed.

Lemma network_failure_rejects_witness :
  (let r := register base stringify offline signed_in in
   r.2 = Rejected NetworkError /\ msg r.1 = "" /\
   session_unchanged signed_in r.1) /\
  (let r := logout base stringify offline signed_in in
   r.2 = Rejected NetworkError /\ msg r.1 = "" /\
   session_unchanged signed_in r.1).
Proof.
  destruct (network_failure_rejects base stringify signed_in)
    as (Hreg & _ & _ & Hlogout).
  split.
  - apply (Hreg offline). reflexivity.
  - apply (Hlogout offline). reflexivity.
Defined.


Example ex_headers_new :
  Headers.new [("X-Trace", "  a1 "); ("Accept", "text/html"); ("x-trace", "b2")]
  = Some {[ "x-trace" := "a1, b2"; "accept" := "text/html" ]}.
Proof. vm_compute. reflexivity. Qed.

Example ex_stringify_escapes :
  stringify (JString ("a" +:+ quote +:+ "b" +:+ backslash +:+ "c"
                      +:+ String (ascii_of_N 10) "d"
                      +:+ String (ascii_of_N 1) ""))
  = quote +:+ "a" +:+ backslash +:+ quote +:+ "b" +:+ backslash +:+ backslash
      +:+ "c" +:+ backslash +:+ "nd" +:+ backslash +:+ "u0001" +:+ quote.
Proof. reflexivity. Qed.

Example ex_headers_invalid :
  Headers.new [("Accept", "text/html"); ("X-Trace", String (ascii_of_N 10) "a")]
  = Some {[ "accept" := "text/html"; "x-trace" := "a" ]}
  /\ Headers.new [("X-Trace", "a" +:+ String (ascii_of_N 10) "b")] = None
  /\ Headers.new [("", "a")] = None.
Proof. vm_compute. repeat split. Qed.


(** *** Further runs *)

(** Scenarios A and B of the login flow. *)
Lemma login_classifies_witness :
  (let r := login base stringify (answers (json_response 200 (Some body1))) initial in
   AuthenticatedAs u1 "tok1" r.1 /\ msg r.1 = "Logged in") /\
  (let r := login base stringify (answers (empty_response 401)) initial in
   msg r.1 = "Invalid credentials").
Proof.
  split.
  - pose proof (login_classifies base stringify
                  (answers (json_response 200 (Some body1))) initial
                  {| status := 200; data := Some body1 |} eq_refl)
      as (_ & H & _).
    exact (H body1 eq_refl eq_refl).
  - pose proof (login_classifies base stringify
                  (answers (empty_response 401)) initial
                  {| status := 401; data := None |} eq_refl)
      as (_ & _ & H & _).
    exact (H eq_refl).
Defined.

(** Scenario D, and a 400 on refresh. *)
Lemma refresh_classifies_witness :
  (let r := refresh base stringify (answers (empty_response 401)) signed_in in
   msg r.1 = "No/invalid refresh cookie") /\
  (let r := refresh base stringify (answers (empty_response 400)) signed_in in
   msg r.1 = "Error: 400").
Proof.
  split.
  - pose proof (refresh_classifies base stringify
                  (answers (empty_response 401)) signed_in
                  {| status := 401; data := None |} eq_refl)
      as (_ & _ & H & _).
    exact (H eq_refl).
  - pose proof (refresh_classifies base stringify
                  (answers (empty_response 400)) signed_in
                  {| status := 400; data := None |} eq_refl)
      as (_ & _ & _ & H & _).
    exact (H eq_refl).
Defined.

Lemma logout_classifies_witness :
  let r := logout base stringify (answers (empty_response 401)) signed_in in
  r.2 = Resolved tt /\ r.1 = (setMsg "Error: 401" signed_in).1.
Proof.
  apply (logout_classifies base stringify
           (answers (empty_response 401)) signed_in
           {| status := 401; data := None |}); [reflexivity | cbn; lia].
Defined.

(** A server reachable at the login URL only serves [login] as well as one
    that answers everywhere. *)
Lemma operations_single_request_witness :
  login base stringify
    (only_at "http://localhost:3000/auth/login" (json_response 200 (Some body1)))
    initial
  = login base stringify (answers (json_response 200 (Some body1))) initial.
Proof.
  destruct (operations_single_request base stringify initial)
    as (_ & Hlogin & _).
  apply Hlogin. reflexivity.
Defined.

Lemma failing_run_keeps_session_witness :
  session_unchanged signed_in
    (run base stringify
       [EvLogin (answers (empty_response 401));
        EvSetEmail "b@test.com";
        EvRefresh offline;
        EvLogout (answers (empty_response 500))]
       signed_in).
Proof.
  apply failing_run_keeps_session.
  repeat constructor; cbn; intros url init r [= <-]; cbn; lia.
Defined.

Lemma no_authentication_without_success_witness :
  Anonymous
    (run base stringify
       [EvRegister (answers (empty_response 409));
        EvLogin (answers (json_response 401 (Some body1)));
        EvLogout (answers (empty_response 204))]
       initial).
Proof.
  apply no_authentication_without_success.
  - split; reflexivity.
  - repeat constructor; cbn; intros url init r [= <-]; cbn; lia.
Defined.

(** Every body of this run is about [u1]; so is the session it ends in. *)
Lemma session_comes_from_one_body_witness :
  session_from (fun d => data_user d = u1)
    (run base stringify
       [EvLogin (answers (json_response 200 (Some body1)));
        EvLogout (answers (empty_response 500));
        EvRefresh (answers (json_response 200 (Some body2)))]
       initial).
Proof.
  apply session_comes_from_one_body.
  repeat constructor; cbn; intros url init r d [= <-] [= <-]; reflexivity.
Defined.

Lemma submit_needs_credentials_witness :
  click_submit base stringify offline no_password = (no_password, Resolved tt) /\
  click_submit base stringify (answers (empty_response 401)) initial
  = login base stringify (answers (empty_response 401)) initial.
Proof.
  split.
  - apply (submit_needs_credentials base stringify offline no_password).
    right. reflexivity.
  - apply (submit_needs_credentials base stringify
             (answers (empty_response 401)) initial); discriminate.
Defined.

Lemma empty_token_shown_as_missing_witness :
  let st' := (login base stringify (answers (json_response 200 (Some body0)))
                initial).1 in
  Authenticated st' /\
  token_text (render st') = "-" /\ user_text (render st') = "a@test.com".
Proof.
  destruct (empty_token_shown_as_missing base stringify initial body0 eq_refl)
    as (_ & Hlogin & _).
  apply (Hlogin (answers (json_response 200 (Some body0)))). reflexivity.
Defined.

(** A 204 that announces JSON does not log out. *)
Lemma unparsable_body_rejects_operation_witness :
  logout base stringify (answers (broken_response 204)) signed_in
  = ((setMsg "" signed_in).1, Rejected SyntaxError).
Proof.
  destruct (unparsable_body_rejects_operation base stringify signed_in SyntaxError)
    as (_ & _ & _ & Hlogout).
  apply (Hlogout (answers (broken_response 204)) (broken_response 204)).
  - reflexivity.
  - by exists "", "".
  - reflexivity.
Defined.

(** A 200 that carries the session as plain text does not log in. *)
Lemma success_needs_json_content_type_witness :
  login base stringify (answers (plain_response 200 (Some body1))) initial
  = ((setMsg "Error: 200" initial).1, Resolved tt).
Proof.
  destruct (success_needs_json_content_type base stringify initial)
    as (_ & Hlogin & _).
  apply (Hlogin (answers (plain_response 200 (Some body1)))
                (plain_response 200 (Some body1))).
  - reflexivity.
  - intros Hct. apply includes_declares_json in Hct. discriminate.
  - reflexivity.
Defined.

(** *** The run-time session *)



(** *** The 204 of logout *)

(** C6, as stated, fails: a 204 that announces JSON (its body is empty, so
    it does not parse) does not log out; [logout] rejects and the session
    stays. *)
Lemma logout_204_json_keeps_session :
  let r := logout base stringify (answers (broken_response 204)) signed_in in
  res_status (broken_response (T:=Null) 204) = 204 /\
  r.2 = Rejected SyntaxError /\
  user r.1 = Some u1 /\ accessToken r.1 = Some "tok1" /\
  ~ Anonymous r.1.
Proof.
  repeat split. intros [Hu _]. discriminate.
Qed.

Lemma logout_204_clears_session_witness :
  (let x := logout base stringify (answers (empty_response 204)) signed_in in
   x.2 = Resolved tt /\ Anonymous x.1 /\ msg x.1 = "Logged out") /\
  logout base stringify (answers (broken_response 204)) signed_in
  = ((setMsg "" signed_in).1, Rejected SyntaxError).
Proof.
  split.
  - destruct (logout_204_clears_session base stringify
                (answers (empty_response 204)) signed_in (empty_response 204)
                eq_refl eq_refl) as (Hclear & _).
    apply Hclear. intros (a & b & Hab). discriminate.
  - destruct (logout_204_clears_session base stringify
                (answers (broken_response 204)) signed_in (broken_response 204)
                eq_refl eq_refl) as (_ & Hkeep).
    apply Hkeep; [by exists "", "" | reflexivity].
Defined.
End Runs.
